(** * teachershubb: the AI service client and its secure proxy

    A shallow embedding of the two source files of the repository:

    - the client service ([callApiProxy], [handleGeminiError],
      [checkApiStatus], [processAttendanceCommand], the validation of
      [getInspirationalQuote], the class data of
      [analyzeStudentPerformance] and the roster line of the prompts),
    - the proxy route [/api/gemini] ([handler]).

    Strings are sequences of character codes ([string]); [toLowerCase] maps
    the Latin capital letters [A]..[Z] to [a]..[z] and leaves every other
    code alone, which is what the JavaScript method does on ASCII text.
    The awaited network call of [processAttendanceCommand] is an input of
    the model: it threw, it resolved to [null], or it resolved to a
    response object.  Values have the shapes the TypeScript source and the
    provider's interface declare for them; an optional field, and a field
    that the source tests for absence, may be [undefined], which is [None].
    Reading a property of [null] or [undefined] throws a [TypeError] whose
    message depends on the engine; the model takes those messages as
    parameters. *)

From Stdlib Require Import Bool List Ascii String ZArith Lia.
Import ListNotations.

Open Scope string_scope.
Open Scope bool_scope.

(* ================================================================== *)
(** ** JavaScript string and array primitives used by the source *)
(* ================================================================== *)

Module Js.

(** One character of [String.prototype.toLowerCase]. *)
Definition lowerChar (c : ascii) : ascii :=
  let n := nat_of_ascii c in
  if (65 <=? n)%nat && (n <=? 90)%nat then ascii_of_nat (n + 32) else c.

(** [s.toLowerCase()]. *)
Fixpoint toLowerCase (s : string) : string :=
  match s with
  | EmptyString => EmptyString
  | String c s' => String (lowerChar c) (toLowerCase s')
  end.

(** [s.startsWith(p)]: [p] is read off the front of [s]. *)
Fixpoint startsWith (s p : string) {struct p} : bool :=
  match p, s with
  | EmptyString, _ => true
  | String _ _, EmptyString => false
  | String a p', String b s' => Ascii.eqb a b && startsWith s' p'
  end.

(** [s.includes(search)]: [search] occurs in [s] at some position. *)
Fixpoint includes (s search : string) : bool :=
  startsWith s search ||
  match s with
  | EmptyString => false
  | String _ s' => includes s' search
  end.

(** [arr.includes(x)] on an array of strings. *)
Definition arrayIncludes (arr : list string) (x : string) : bool :=
  existsb (String.eqb x) arr.

(** Truthiness of a string that may be [undefined]: [!v] is the negation. *)
Definition truthy (v : option string) : bool :=
  match v with
  | None => false
  | Some s => negb (String.eqb s "")
  end.

End Js.

(** What an [async] function body ends in: a returned value or a thrown
    [Error], of which the model keeps the message. *)
Inductive outcome (A : Type) : Type :=
| Returned (a : A)
| Thrown (userMessage : string).
Arguments Returned {A} a.
Arguments Thrown {A} userMessage.

(* ================================================================== *)
(** ** The error classifier *)
(* ================================================================== *)

Definition genericFailureMessage : string :=
  "An AI feature failed. Please try again. If the problem persists, check your connection or the server logs.".
Definition invalidKeyMessage : string :=
  "AI Error: The API key configured on the server is invalid.".
Definition quotaMessage : string :=
  "AI Error: API quota exceeded. Please check your billing details.".
Definition communicationMessage : string :=
  "AI Communication Error: Could not connect to the secure AI proxy. Please check your network connection.".

(** [handleGeminiError(error, functionName)].  The argument is the
    [message] of the caught value when it is a string, [None] when the
    value is falsy or has no string message; the result is the message of
    the [Error] that is built.  [functionName] only goes to the log. *)
Definition handleGeminiError (error : option string) : string :=
  match error with
  | Some message =>
      let lowerMessage := Js.toLowerCase message in
      if Js.includes lowerMessage "api key not valid"
         || Js.includes lowerMessage "api_key_invalid"
      then invalidKeyMessage
      else if Js.includes lowerMessage "quota"
      then quotaMessage
      else if Js.includes lowerMessage "failed to call the ai service"
      then communicationMessage
      else "AI Error: " ++ message
  | None => genericFailureMessage
  end.

(* ================================================================== *)
(** ** The attendance command resolver *)
(* ================================================================== *)

Record Student : Type := mkStudent {
  id : string;
  firstName : string;
  lastName : string
}.

(** The arguments of the tool invocation, as the source casts them; a
    field the provider left out is [None]. *)
Record CallArgs : Type := mkArgs {
  status : option string;
  student_names : option (list string)
}.

(** A tool invocation; its [args] are optional in the provider's
    interface, and [None] when the invocation carries none. *)
Record FunctionCall : Type := mkCall { args : option CallArgs }.

(** The part of the provider response the resolver reads. *)
Record ProviderResponse : Type := mkResponse {
  functionCalls : option (list FunctionCall)
}.

(** What [await callApiProxy(...)] came to: it threw, it resolved to
    [null], or it resolved to a response object. *)
Inductive ProxyReply : Type :=
| ProxyThrew (error : option string)
| ProxyReturnedNull
| ProxyReturned (response : ProviderResponse).

Record AttendanceIntent : Type := mkIntent {
  intentStatus : string;
  studentIds : list string
}.

(** The callback of [students.find] for one lower-cased name. *)
Definition nameMatches (name : string) (s : Student) : bool :=
  let fullName := Js.toLowerCase (firstName s ++ " " ++ lastName s) in
  let lastNameFirst := Js.toLowerCase (lastName s ++ " " ++ firstName s) in
  Js.includes fullName name
  || Js.includes lastNameFirst name
  || Js.includes (Js.toLowerCase (firstName s)) name
  || Js.includes (Js.toLowerCase (lastName s)) name.

Definition foundStudent (students : list Student) (name : string)
  : option Student :=
  find (nameMatches name) students.

(** One turn of the [for ... of lowerCaseNames] loop. *)
Definition resolveStep (students : list Student)
    (studentIds : list string) (name : string) : list string :=
  match foundStudent students name with
  | Some s =>
      if negb (Js.arrayIncludes studentIds (id s))
      then studentIds ++ [id s]
      else studentIds
  | None => studentIds
  end.

Definition resolveLoop (students : list Student)
    (lowerCaseNames : list string) (studentIds : list string)
  : list string :=
  fold_left (resolveStep students) lowerCaseNames studentIds.

(** [response.functionCalls?.[0]]. *)
Definition firstCall (response : ProviderResponse) : option FunctionCall :=
  match functionCalls response with
  | Some (call :: _) => Some call
  | _ => None
  end.

Section AttendanceCommand.

(** The message of the [TypeError] the engine throws on reading the named
    property of [null], and of [undefined]. *)
Variable nullAccessMessage : string -> string.
Variable undefinedAccessMessage : string -> string.

(** [processAttendanceCommand(command, students)], from the point where the
    proxy call has settled.  [Returned None] is the [null] result; what is
    thrown inside the [try] leaves through [handleGeminiError]. *)
Definition processAttendanceCommand (reply : ProxyReply)
    (students : list Student) : outcome (option AttendanceIntent) :=
  match reply with
  | ProxyThrew error => Thrown (handleGeminiError error)
  | ProxyReturnedNull =>
      Thrown (handleGeminiError (Some (nullAccessMessage "functionCalls")))
  | ProxyReturned response =>
      match firstCall response with
      | None => Returned None
      | Some call =>
          match args call with
          | None =>
              Thrown (handleGeminiError
                        (Some (undefinedAccessMessage "status")))
          | Some callArgs =>
              match status callArgs, student_names callArgs with
              | Some st, Some names =>
                  if negb (Js.truthy (Some st)) then Returned None
                  else
                    let lowerCaseNames := map Js.toLowerCase names in
                    if Js.arrayIncludes lowerCaseNames "all"
                    then Returned (Some (mkIntent st (map id students)))
                    else Returned
                           (Some (mkIntent st
                                    (resolveLoop students lowerCaseNames [])))
              | _, _ => Returned None
              end
          end
      end
  end.

End AttendanceCommand.

(** A response carrying one tool invocation with both fields set. *)
Definition invocation (st : string) (names : list string) : ProxyReply :=
  ProxyReturned
    (mkResponse (Some [mkCall (Some (mkArgs (Some st) (Some names)))])).

(* ================================================================== *)
(** ** The proxy route *)
(* ================================================================== *)

(** JSON documents, as [res.json] sends them. *)
#[local] Set Warnings "-register-all".
Inductive json : Type :=
| JNull
| JBool (b : bool)
| JNum (n : Z)
| JStr (s : string)
| JArr (items : list json)
| JObj (fields : list (string * json)).

Fixpoint field (key : string) (fields : list (string * json)) : option json :=
  match fields with
  | [] => None
  | (k, v) :: rest => if String.eqb k key then Some v else field key rest
  end.

Definition hasField (key : string) (doc : json) : bool :=
  match doc with
  | JObj fields => match field key fields with Some _ => true | None => false end
  | _ => false
  end.

Record VercelRequest : Type := mkRequest {
  method : string;
  body : json
}.

Record VercelResponse : Type := mkReply {
  statusCode : Z;
  sent : json
}.

Section Proxy.

(** [process.env.API_KEY]. *)
Variable API_KEY : option string.

(** [new GoogleGenAI({ apiKey }).models.generateContent(modelOptions)]:
    the provider's response object, or the message of the [Error] the
    SDK threw. *)
Variable generateContent : string -> json -> string + json.

Definition handler (req : VercelRequest) : VercelResponse :=
  if negb (String.eqb (method req) "POST") then
    mkReply 405 (JObj [("error", JStr "Method not allowed")])
  else
    let attempt : string + json :=
      match API_KEY with
      | Some apiKey =>
          if Js.truthy (Some apiKey)
          then generateContent apiKey (body req)
          else inl "API_KEY is not set in environment variables."
      | None => inl "API_KEY is not set in environment variables."
      end in
    match attempt with
    | inr response => mkReply 200 response
    | inl message =>
        mkReply 500
          (JObj [("error",
                  JStr "An error occurred while communicating with the AI service.");
                 ("details", JStr message)])
    end.

End Proxy.

(* ================================================================== *)
(** ** The client side of the proxy *)
(* ================================================================== *)

(** Truthiness of a value read off a JSON document; [None] is
    [undefined]. *)
Definition jsonTruthy (v : option json) : bool :=
  match v with
  | None => false
  | Some JNull => false
  | Some (JBool b) => b
  | Some (JNum n) => negb (n =? 0)%Z
  | Some (JStr s) => negb (String.eqb s "")
  | Some (JArr _) => true
  | Some (JObj _) => true
  end.

(** [v.key] on a document [v] that is not [null], for a key that names no
    built-in property: only an object can hold it. *)
Definition property (key : string) (v : json) : option json :=
  match v with
  | JObj fields => field key fields
  | _ => None
  end.

(** [a || b]. *)
Definition orElse (a b : option json) : option json :=
  if jsonTruthy a then a else b.

(** How [await fetch(...)] followed by [response.json()] can end: [fetch]
    rejects with an error of the given message; or a response arrives with
    its [ok] flag, and reading its body as JSON gives a document or fails
    with a [SyntaxError] of the given message. *)
Inductive FetchResult : Type :=
| FetchRejected (message : string)
| FetchSettled (ok : bool) (parsed : string + json).

(** What [checkApiStatus] resolves to. *)
Record StatusReport : Type := mkReport {
  reportStatus : string;
  reportMessage : string
}.

Section Client.

(** The message of the [TypeError] the engine throws on reading the named
    property of [null]. *)
Variable nullAccessMessage : string -> string.

(** [String(v)] for a document that is not a string. *)
Variable ToString : json -> string.

(** The message of [new Error(v)]. *)
Definition newError (v : option json) : string :=
  match v with
  | None => ""
  | Some (JStr s) => s
  | Some other => ToString other
  end.

(** [callApiProxy(modelOptions)], from the point where the request has
    been answered. *)
Definition callApiProxy (answer : FetchResult) : outcome json :=
  match answer with
  | FetchRejected message => Thrown message
  | FetchSettled _ (inl message) => Thrown message
  | FetchSettled true (inr document) => Returned document
  | FetchSettled false (inr JNull) => Thrown (nullAccessMessage "details")
  | FetchSettled false (inr errorData) =>
      Thrown (newError
                (orElse (orElse (property "details" errorData)
                                (property "error" errorData))
                        (Some (JStr "Failed to call the AI service via proxy."))))
  end.

(** [checkApiStatus()]. *)
Definition checkApiStatus (answer : FetchResult) : StatusReport :=
  match callApiProxy answer with
  | Returned _ =>
      mkReport "success"
        "Connection successful. The secure AI proxy is working correctly."
  | Thrown message => mkReport "error" (handleGeminiError (Some message))
  end.

(** [getInspirationalQuote()], from the point where the response text has
    gone through [JSON.parse]: [inl] carries the message of whatever was
    thrown up to there. *)
Definition getInspirationalQuote (parsed : string + json) : outcome json :=
  match parsed with
  | inl message => Thrown (handleGeminiError (Some message))
  | inr JNull => Thrown (handleGeminiError (Some (nullAccessMessage "quote")))
  | inr result =>
      if negb (jsonTruthy (property "quote" result))
         || negb (jsonTruthy (property "author" result))
      then Thrown (handleGeminiError
                     (Some "AI returned an invalid quote structure."))
      else Returned result
  end.

End Client.

(** The request [checkApiStatus] sends. *)
Definition statusProbe : json :=
  JObj [("model", JStr "gemini-2.5-flash"); ("contents", JStr "test")].

(** What the client's [fetch] sees of a reply of the route.  [ok] holds
    for the status codes 200 to 299.  The route hands the provider's
    response object to [res.json] only on that path, and the client reads
    [received] of it: what JSON serialisation leaves of the object, its own
    enumerable properties and not the getters of its class.  The other
    bodies are object literals of strings, which arrive as they are. *)
Definition served (received : json -> json) (res : VercelResponse)
  : FetchResult :=
  let ok := ((200 <=? statusCode res)%Z && (statusCode res <=? 299)%Z) in
  FetchSettled ok (inr (if ok then received (sent res) else sent res)).

(** The settled proxy call as [processAttendanceCommand] takes it up;
    [view] reads the untyped response object at its declared type. *)
Definition settled (view : json -> ProviderResponse) (o : outcome json)
  : ProxyReply :=
  match o with
  | Thrown message => ProxyThrew (Some message)
  | Returned JNull => ProxyReturnedNull
  | Returned document => ProxyReturned (view document)
  end.

(** [students.map(s => `${s.firstName} ${s.lastName}`).join(', ')], the
    roster as the prompts show it. *)
Definition studentList (students : list Student) : string :=
  String.concat ", " (map (fun s => firstName s ++ " " ++ lastName s) students).

(* ================================================================== *)
(** ** The class data of the performance analysis *)
(* ================================================================== *)

Section ClassData.

(** The types of [quarter] and of the scores, and
    [((score / maxScore) * 100).toFixed(2)]. *)
Variables Quarter Number : Type.
Variable percentage : Number -> Number -> string.

Record Grade : Type := mkGrade {
  gradeStudentId : string;
  subject : string;
  quarter : Quarter;
  score : Number;
  maxScore : Number
}.

Record Anecdote : Type := mkAnecdote {
  anecdoteStudentId : string;
  observation : string
}.

Record GradeLine : Type := mkGradeLine {
  lineSubject : string;
  lineQuarter : Quarter;
  linePercentage : string
}.

Record StudentData : Type := mkStudentData {
  dataName : string;
  dataGrades : list GradeLine;
  dataAnecdotes : list string
}.

(** The [studentData] array of [analyzeStudentPerformance]. *)
Definition studentData (students : list Student) (grades : list Grade)
    (anecdotes : list Anecdote) : list StudentData :=
  map (fun student =>
         let studentGrades :=
           map (fun g => mkGradeLine (subject g) (quarter g)
                                     (percentage (score g) (maxScore g)))
               (filter (fun g => String.eqb (gradeStudentId g) (id student))
                       grades) in
         let studentAnecdotes :=
           map observation
               (filter (fun a => String.eqb (anecdoteStudentId a) (id student))
                       anecdotes) in
         mkStudentData (firstName student ++ " " ++ lastName student)
                       studentGrades studentAnecdotes)
      students.

End ClassData.

Arguments gradeStudentId {Quarter Number} _.
Arguments dataName {Quarter} _.
Arguments dataGrades {Quarter} _.
Arguments dataAnecdotes {Quarter} _.

(* ================================================================== *)
(** ** Specification vocabulary *)
(* ================================================================== *)

(** [p] occurs in [s]: some text before it and some after it. *)
Definition Substring (p s : string) : Prop :=
  exists pre suf, s = pre ++ p ++ suf.

(** [m] contains the word [k] written in some letter-casing. *)
Definition ContainsAnyCase (k m : string) : Prop :=
  exists w, Substring w m /\ Js.toLowerCase w = k.

(** The four clauses under which a lower-cased candidate selects a roster
    entry. *)
Definition NameMatch (candidate : string) (s : Student) : Prop :=
  Substring candidate (Js.toLowerCase (firstName s ++ " " ++ lastName s))
  \/ Substring candidate (Js.toLowerCase (lastName s ++ " " ++ firstName s))
  \/ Substring candidate (Js.toLowerCase (firstName s))
  \/ Substring candidate (Js.toLowerCase (lastName s)).

(** [r] is the first entry of the roster, in roster order, that the
    candidate selects; [None] when no entry is selected. *)
Definition FirstMatch (students : list Student) (candidate : string)
    (r : option Student) : Prop :=
  match r with
  | Some s =>
      exists before after,
        students = (before ++ s :: after)%list
        /\ NameMatch candidate s
        /\ forall x, In x before -> ~ NameMatch candidate x
  | None => forall x, In x students -> ~ NameMatch candidate x
  end.

(** The identifiers the candidates select, one per candidate that selects
    an entry, in candidate order. *)
Definition matchedIds (students : list Student) (lowerCaseNames : list string)
  : list string :=
  flat_map (fun name => match foundStudent students name with
                        | Some s => [id s]
                        | None => []
                        end) lowerCaseNames.

(** Keep the first occurrence of every element. *)
Fixpoint dedupFirst (l : list string) : list string :=
  match l with
  | [] => []
  | x :: rest => x :: filter (fun y => negb (String.eqb y x)) (dedupFirst rest)
  end.

(** The eight ways of writing the sentinel. *)
Definition allCasings : list string :=
  ["ALL"; "ALl"; "AlL"; "All"; "aLL"; "aLl"; "alL"; "all"].

(** The messages of one engine, V8, for the concrete inputs. *)
Definition v8NullMessage (key : string) : string :=
  "Cannot read properties of null (reading '" ++ key ++ "')".
Definition v8UndefinedMessage (key : string) : string :=
  "Cannot read properties of undefined (reading '" ++ key ++ "')".

(** The roster of the end-to-end scenarios. *)
Definition juan : Student := mkStudent "s1" "Juan" "Dela Cruz".
Definition maria : Student := mkStudent "s2" "Maria" "Santos".
Definition ana : Student := mkStudent "s3" "Ana" "Gomez".
Definition classRoster : list Student := [juan; maria; ana].

(** A roster in which two entries share an identifier. *)
Definition sharedIdRoster : list Student :=
  [mkStudent "s1" "Juan" "Dela Cruz"; mkStudent "s1" "Maria" "Santos"].

(** Two roster entries with the same identifier whose names differ at most
    in letter-casing. *)
Definition SameIgnoringCase (s s' : Student) : Prop :=
  id s = id s'
  /\ Js.toLowerCase (firstName s) = Js.toLowerCase (firstName s')
  /\ Js.toLowerCase (lastName s) = Js.toLowerCase (lastName s').

(* ================================================================== *)
(** ** Strings *)
(* ================================================================== *)

Section StringFacts.

Lemma append_assoc (a b c : string) : (a ++ b) ++ c = a ++ (b ++ c).
Proof. induction a as [|x a IH]; simpl; [reflexivity | now rewrite IH]. Qed.

Lemma append_empty_r (a : string) : a ++ "" = a.
Proof. induction a as [|x a IH]; simpl; [reflexivity | now rewrite IH]. Qed.

Lemma toLowerCase_append (a b : string) :
  Js.toLowerCase (a ++ b) = Js.toLowerCase a ++ Js.toLowerCase b.
Proof. induction a as [|x a IH]; simpl; [reflexivity | now rewrite IH]. Qed.

(** A split of the lower-cased text is the image of a split of the text. *)
Lemma toLowerCase_split (m a b : string) :
  Js.toLowerCase m = a ++ b ->
  exists m1 m2, m = m1 ++ m2
                /\ Js.toLowerCase m1 = a /\ Js.toLowerCase m2 = b.
Proof.
  revert m; induction a as [|x a IH]; intros m H.
  - exists "", m. auto.
  - destruct m as [|c m]; simpl in H; [discriminate|].
    injection H as Hc Hm.
    destruct (IH _ Hm) as (m1 & m2 & -> & H1 & H2).
    exists (String c m1), m2. simpl. rewrite Hc, H1. auto.
Qed.

Lemma startsWith_spec (s p : string) :
  Js.startsWith s p = true <-> exists suf, s = p ++ suf.
Proof.
  revert s; induction p as [|a p IH]; intros s; simpl.
  - split; [exists s; reflexivity | reflexivity].
  - destruct s as [|b s].
    + split; [discriminate | intros [suf H]; discriminate].
    + rewrite andb_true_iff, Ascii.eqb_eq, IH. split.
      * intros [-> [suf ->]]. now exists suf.
      * intros [suf H]. injection H as -> ->. split; [reflexivity | now exists suf].
Qed.

Lemma includes_spec (s p : string) :
  Js.includes s p = true <-> Substring p s.
Proof.
  unfold Substring. induction s as [|c s IH].
  - simpl. rewrite orb_false_r, startsWith_spec. split.
    + intros [suf H]. now exists "", suf.
    + intros (pre & suf & H). destruct pre; [now exists suf | discriminate].
  - cbn [Js.includes]. rewrite orb_true_iff, startsWith_spec, IH. split.
    + intros [[suf H] | (pre & suf & H)].
      * now exists "", suf.
      * exists (String c pre), suf. simpl. now rewrite H.
    + intros (pre & suf & H). destruct pre as [|d pre].
      * left. now exists suf.
      * right. injection H as _ H. now exists pre, suf.
Qed.

Lemma includes_false (s p : string) :
  Js.includes s p = false <-> ~ Substring p s.
Proof.
  rewrite <- includes_spec. destruct (Js.includes s p); split; intros H;
    try reflexivity; try discriminate; now exfalso; apply H.
Qed.

Lemma includes_empty (s : string) : Js.includes s "" = true.
Proof. destruct s; reflexivity. Qed.

(** Searching the lower-cased text for a lower-case word finds the word
    in whatever casing the text has it. *)
Lemma includes_anyCase (m k : string) :
  Js.includes (Js.toLowerCase m) k = true <-> ContainsAnyCase k m.
Proof.
  rewrite includes_spec. unfold ContainsAnyCase, Substring. split.
  - intros (pre & suf & H).
    destruct (toLowerCase_split _ _ _ H) as (m1 & m' & -> & H1 & H').
    destruct (toLowerCase_split _ _ _ H') as (w & m3 & -> & Hw & H3).
    exists w. split; [now exists m1, m3 | exact Hw].
  - intros (w & (pre & suf & ->) & <-).
    exists (Js.toLowerCase pre), (Js.toLowerCase suf).
    now rewrite !toLowerCase_append.
Qed.

Lemma truthy_nonempty (st : string) :
  Js.truthy (Some st) = true <-> st <> "".
Proof.
  unfold Js.truthy. rewrite negb_true_iff. apply String.eqb_neq.
Qed.

Lemma arrayIncludes_In (arr : list string) (x : string) :
  Js.arrayIncludes arr x = true <-> In x arr.
Proof.
  unfold Js.arrayIncludes. rewrite existsb_exists. split.
  - intros (y & Hy & E). apply String.eqb_eq in E. now subst.
  - intros H. exists x. split; [exact H | apply String.eqb_refl].
Qed.

Lemma arrayIncludes_app (a b : list string) (x : string) :
  Js.arrayIncludes (a ++ b)%list x = Js.arrayIncludes a x || Js.arrayIncludes b x.
Proof. apply existsb_app. Qed.

Lemma allCasings_lower (n : string) :
  In n allCasings -> Js.toLowerCase n = "all".
Proof.
  unfold allCasings. simpl.
  intros [<-|[<-|[<-|[<-|[<-|[<-|[<-|[<-|[]]]]]]]]]; reflexivity.
Qed.

Lemma lowerChar_a (c : ascii) :
  Js.lowerChar c = "a"%char -> c = "a"%char \/ c = "A"%char.
Proof.
  destruct c as [[] [] [] [] [] [] [] []]; vm_compute; intros H;
    try discriminate H; auto.
Qed.

Lemma lowerChar_l (c : ascii) :
  Js.lowerChar c = "l"%char -> c = "l"%char \/ c = "L"%char.
Proof.
  destruct c as [[] [] [] [] [] [] [] []]; vm_compute; intros H;
    try discriminate H; auto.
Qed.

(** [allCasings] lists every string that lower-cases to the sentinel. *)
Lemma allCasings_complete (n : string) :
  Js.toLowerCase n = "all" -> In n allCasings.
Proof.
  destruct n as [|c1 [|c2 [|c3 [|c4 n]]]]; simpl; try discriminate.
  intros H. injection H as H1 H2 H3.
  destruct (lowerChar_a c1 H1) as [-> | ->];
    destruct (lowerChar_l c2 H2) as [-> | ->];
    destruct (lowerChar_l c3 H3) as [-> | ->]; auto 10.
Qed.

End StringFacts.

(* ================================================================== *)
(** ** Name resolution *)
(* ================================================================== *)

Section Resolution.

Local Open Scope list_scope.

Lemma nameMatches_spec (name : string) (s : Student) :
  nameMatches name s = true <-> NameMatch name s.
Proof.
  unfold nameMatches, NameMatch.
  rewrite !orb_true_iff, !includes_spec. tauto.
Qed.

Lemma nameMatches_false (name : string) (s : Student) :
  nameMatches name s = false <-> ~ NameMatch name s.
Proof.
  rewrite <- nameMatches_spec. destruct (nameMatches name s); split;
    intros H; try reflexivity; try discriminate; now exfalso; apply H.
Qed.

(** [find] stops at the first roster entry the callback accepts. *)
Lemma foundStudent_FirstMatch (students : list Student) (name : string) :
  FirstMatch students name (foundStudent students name).
Proof.
  unfold foundStudent. induction students as [|s rest IH]; simpl.
  - intros x [].
  - destruct (nameMatches name s) eqn:E.
    + exists [], rest. split; [reflexivity|]. split.
      * now apply nameMatches_spec.
      * intros x [].
    + apply nameMatches_false in E.
      destruct (find (nameMatches name) rest) as [t|]; simpl in IH |- *.
      * destruct IH as (before & after & -> & Ht & Hb).
        exists (s :: before), after. split; [reflexivity|]. split; [exact Ht|].
        intros x [<-|Hx]; [exact E | now apply Hb].
      * intros x [<-|Hx]; [exact E | now apply IH].
Qed.

Lemma foundStudent_In (students : list Student) (name : string) (s : Student) :
  foundStudent students name = Some s -> In s students.
Proof. intros H. now apply find_some in H. Qed.

(** *** Keeping first occurrences *)

Lemma filter_twice (f g : string -> bool) (l : list string) :
  filter f (filter g l) = filter (fun x => g x && f x) l.
Proof.
  induction l as [|x l IH]; simpl; [reflexivity|].
  destruct (g x); simpl; [destruct (f x); now rewrite IH | exact IH].
Qed.

Lemma dedupFirst_In (l : list string) (x : string) :
  In x (dedupFirst l) <-> In x l.
Proof.
  induction l as [|y l IH]; simpl; [tauto|].
  rewrite filter_In, IH, negb_true_iff, String.eqb_neq.
  destruct (string_dec y x) as [->|N]; [tauto|].
  split; [tauto|]. intros [E|H]; [left; exact E | right; split; congruence].
Qed.

Lemma dedupFirst_NoDup (l : list string) : NoDup (dedupFirst l).
Proof.
  induction l as [|y l IH]; simpl; constructor.
  - rewrite filter_In, String.eqb_refl. intros [_ H]. discriminate.
  - now apply NoDup_filter.
Qed.

Lemma dedupFirst_filter (p : string -> bool) (l : list string) :
  dedupFirst (filter p l) = filter p (dedupFirst l).
Proof.
  induction l as [|y l IH]; simpl; [reflexivity|].
  destruct (p y) eqn:E; simpl; rewrite ?E, IH, !filter_twice.
  - f_equal. apply filter_ext. intros x. apply andb_comm.
  - apply filter_ext. intros x.
    destruct (String.eqb_spec x y) as [->|N]; simpl; [now rewrite E | reflexivity].
Qed.

(** *** The loop *)

(** The loop appends to what it was given the first occurrences of the
    selected identifiers that are not there yet. *)
Lemma resolveLoop_dedup (students : list Student) (names acc : list string) :
  resolveLoop students names acc
  = acc ++ dedupFirst (filter (fun y => negb (Js.arrayIncludes acc y))
                              (matchedIds students names)).
Proof.
  unfold resolveLoop. revert acc.
  induction names as [|n names IH]; intros acc; simpl.
  - now rewrite app_nil_r.
  - rewrite IH. unfold resolveStep, matchedIds. simpl.
    destruct (foundStudent students n) as [s|]; simpl; [|reflexivity].
    destruct (Js.arrayIncludes acc (id s)) eqn:E; simpl; [reflexivity|].
    rewrite <- app_assoc. simpl. do 2 f_equal.
    rewrite <- dedupFirst_filter, filter_twice. f_equal.
    apply filter_ext. intros x.
    rewrite arrayIncludes_app. unfold Js.arrayIncludes at 2. simpl.
    rewrite orb_false_r, negb_orb. reflexivity.
Qed.

Lemma resolveLoop_spec (students : list Student) (names : list string) :
  resolveLoop students names [] = dedupFirst (matchedIds students names).
Proof.
  rewrite resolveLoop_dedup. simpl. f_equal. apply filter_true.
Qed.

Lemma matchedIds_In (students : list Student) (names : list string)
    (i : string) :
  In i (matchedIds students names)
  <-> exists name s, In name names
                     /\ foundStudent students name = Some s /\ id s = i.
Proof.
  unfold matchedIds. rewrite in_flat_map. split.
  - intros (name & Hn & Hi).
    destruct (foundStudent students name) as [s|] eqn:E; simpl in Hi;
      [|contradiction].
    destruct Hi as [<-|[]]. now exists name, s.
  - intros (name & s & Hn & E & <-). exists name. rewrite E. simpl. auto.
Qed.

Lemma matchedIds_roster (students : list Student) (names : list string)
    (i : string) :
  In i (matchedIds students names) -> In i (map id students).
Proof.
  rewrite matchedIds_In. intros (name & s & _ & E & <-).
  apply in_map. now apply foundStudent_In in E.
Qed.

(** *** The resolver on an invocation that passes validation *)

Lemma process_valid
    (nullAccessMessage undefinedAccessMessage : string -> string)
    (response : ProviderResponse) (students : list Student)
    (st : string) (names : list string) :
  firstCall response = Some (mkCall (Some (mkArgs (Some st) (Some names)))) ->
  Js.truthy (Some st) = true ->
  processAttendanceCommand nullAccessMessage undefinedAccessMessage
    (ProxyReturned response) students
  = Returned (Some (mkIntent st
      (if Js.arrayIncludes (map Js.toLowerCase names) "all"
       then map id students
       else dedupFirst (matchedIds students (map Js.toLowerCase names))))).
Proof.
  intros Hc Ht. unfold processAttendanceCommand. rewrite Hc. simpl args.
  cbn [status student_names]. rewrite Ht. simpl negb. cbv iota.
  destruct (Js.arrayIncludes (map Js.toLowerCase names) "all");
    [reflexivity | now rewrite resolveLoop_spec].
Qed.

Lemma process_invocation
    (nullAccessMessage undefinedAccessMessage : string -> string)
    (students : list Student) (st : string)
    (names : list string) :
  Js.truthy (Some st) = true ->
  processAttendanceCommand nullAccessMessage undefinedAccessMessage
    (invocation st names) students
  = Returned (Some (mkIntent st
      (if Js.arrayIncludes (map Js.toLowerCase names) "all"
       then map id students
       else dedupFirst (matchedIds students (map Js.toLowerCase names))))).
Proof. intros Hst. now apply process_valid. Qed.

(** The first match is unique: the declarative description fixes what
    [find] returns. *)
Lemma FirstMatch_found (students : list Student) (name : string)
    (r : option Student) :
  FirstMatch students name r -> foundStudent students name = r.
Proof.
  unfold foundStudent. destruct r as [s|]; simpl.
  - intros (before & after & -> & Hs & Hb).
    induction before as [|a before IH]; simpl.
    + apply nameMatches_spec in Hs. now rewrite Hs.
    + rewrite (proj2 (nameMatches_false name a) (Hb a (or_introl eq_refl))).
      apply IH. intros x Hx. apply Hb. now right.
  - intros H. induction students as [|a l IH]; simpl; [reflexivity|].
    rewrite (proj2 (nameMatches_false name a) (H a (or_introl eq_refl))).
    apply IH. intros x Hx. apply H. now right.
Qed.

Lemma foundStudent_FirstMatch_iff (students : list Student) (name : string)
    (r : option Student) :
  foundStudent students name = r <-> FirstMatch students name r.
Proof.
  split; [intros <-; apply foundStudent_FirstMatch | apply FirstMatch_found].
Qed.

Lemma sentinel_found (names : list string) (n : string) :
  In n names -> In n allCasings ->
  Js.arrayIncludes (map Js.toLowerCase names) "all" = true.
Proof.
  intros Hn Hc. apply arrayIncludes_In.
  rewrite <- (allCasings_lower n Hc). now apply in_map.
Qed.

Lemma sentinel_absent (names : list string) :
  Js.arrayIncludes (map Js.toLowerCase names) "all" = false
  <-> forall n, In n names -> ~ In n allCasings.
Proof.
  split.
  - intros E n Hn Hc. now rewrite (sentinel_found names n Hn Hc) in E.
  - intros H.
    destruct (Js.arrayIncludes (map Js.toLowerCase names) "all") eqn:E;
      [|reflexivity].
    apply arrayIncludes_In, in_map_iff in E. destruct E as (n & El & Hn).
    exfalso. apply (H n Hn). now apply allCasings_complete.
Qed.

(** *** The end-to-end scenarios *)

Example scenario_two_full_names
    (nullAccessMessage undefinedAccessMessage : string -> string) :
  processAttendanceCommand nullAccessMessage undefinedAccessMessage
    (invocation "absent" ["Juan Dela Cruz"; "Maria Santos"]) classRoster
  = Returned (Some (mkIntent "absent" [id juan; id maria])).
Proof. reflexivity. Qed.

Example scenario_first_name_only
    (nullAccessMessage undefinedAccessMessage : string -> string) :
  processAttendanceCommand nullAccessMessage undefinedAccessMessage
    (invocation "late" ["Ana"]) classRoster
  = Returned (Some (mkIntent "late" [id ana])).
Proof. reflexivity. Qed.

Example scenario_everyone
    (nullAccessMessage undefinedAccessMessage : string -> string) :
  processAttendanceCommand nullAccessMessage undefinedAccessMessage
    (invocation "present" ["ALL"]) classRoster
  = Returned (Some (mkIntent "present" [id juan; id maria; id ana])).
Proof. reflexivity. Qed.

Example scenario_proxy_failure
    (nullAccessMessage undefinedAccessMessage : string -> string) :
  processAttendanceCommand nullAccessMessage undefinedAccessMessage
    (ProxyThrew (Some "Failed to call the AI service via proxy.")) classRoster
  = Thrown communicationMessage.
Proof. reflexivity. Qed.

End Resolution.

(* ================================================================== *)
(** ** Properties of the attendance command resolver *)
(* ================================================================== *)

Section Resolver.

Variable nullAccessMessage : string -> string.
Variable undefinedAccessMessage : string -> string.

Local Open Scope list_scope.

Variable response : ProviderResponse.
Variable students : list Student.

(** C1, as amended.  When the first tool invocation carries a non-empty
    status and its [student_names] holds an entry spelling the sentinel
    ALL in some letter-casing, the resolver returns that status with the
    identifier of every roster entry, one per entry and in roster order,
    whatever else the list holds. *)
Theorem all_sentinel_selects_whole_roster
    (st : string) (names : list string) (n : string) :
  firstCall response = Some (mkCall (Some (mkArgs (Some st) (Some names)))) ->
  Js.truthy (Some st) = true ->
  In n names ->
  In n allCasings ->
  processAttendanceCommand nullAccessMessage undefinedAccessMessage
    (ProxyReturned response) students
  = Returned (Some (mkIntent st (map id students)))
  /\ forall k, nth_error (map id students) k
               = option_map id (nth_error students k).
Proof.
  intros Hcall Hst Hn Hcase. split.
  - rewrite (process_valid _ _ _ _ _ _ Hcall Hst).
    now rewrite (sentinel_found names n Hn Hcase).
  - intros k. apply nth_error_map.
Qed.

(** C2, as amended.  On an invocation that passes validation the
    returned identifier list has no duplicates whenever the candidates
    are matched one by one (no sentinel among them), however many of
    them select the same entry; on the sentinel path it has none
    whenever the roster's identifiers are pairwise distinct. *)
Theorem resolved_ids_have_no_duplicates
    (st : string) (names : list string) :
  firstCall response = Some (mkCall (Some (mkArgs (Some st) (Some names)))) ->
  Js.truthy (Some st) = true ->
  Js.arrayIncludes (map Js.toLowerCase names) "all" = false
  \/ NoDup (map id students) ->
  exists ids,
    processAttendanceCommand nullAccessMessage undefinedAccessMessage
      (ProxyReturned response) students
    = Returned (Some (mkIntent st ids))
    /\ NoDup ids.
Proof.
  intros Hcall Hst Hpath.
  rewrite (process_valid _ _ _ _ _ _ Hcall Hst).
  eexists. split; [reflexivity|].
  destruct (Js.arrayIncludes (map Js.toLowerCase names) "all") eqn:E.
  - destruct Hpath as [H|H]; [discriminate | exact H].
  - apply dedupFirst_NoDup.
Qed.

(** C3.  Without the sentinel, the candidates are lower-cased and taken
    in the order the provider gave them; each selects the first roster
    entry, in roster order, of which it is a substring of the lower-cased
    "first last", "last first", first name or last name; the result lists
    the selected identifiers in that order, first occurrences only.  The
    entry Ana Gomez is selected by the candidate "ana". *)
Theorem candidates_select_first_matching_entry
    (st : string) (names : list string) :
  firstCall response = Some (mkCall (Some (mkArgs (Some st) (Some names)))) ->
  Js.truthy (Some st) = true ->
  Js.arrayIncludes (map Js.toLowerCase names) "all" = false ->
  processAttendanceCommand nullAccessMessage undefinedAccessMessage
    (ProxyReturned response) students
  = Returned (Some (mkIntent st
      (dedupFirst (matchedIds students (map Js.toLowerCase names)))))
  /\ (forall n, FirstMatch students (Js.toLowerCase n)
                  (foundStudent students (Js.toLowerCase n)))
  /\ (forall i before,
        (forall x, In x before -> ~ NameMatch (Js.toLowerCase "ana") x) ->
        foundStudent (before ++ [mkStudent i "Ana" "Gomez"])
                     (Js.toLowerCase "ana")
        = Some (mkStudent i "Ana" "Gomez")).
Proof.
  intros Hcall Hst Hall. split; [|split].
  - rewrite (process_valid _ _ _ _ _ _ Hcall Hst). now rewrite Hall.
  - intros n. apply foundStudent_FirstMatch.
  - intros i before Hb. unfold foundStudent.
    change (Js.toLowerCase "ana") with "ana" in *.
    induction before as [|x before IH]; [reflexivity|]. simpl.
    assert (E : nameMatches "ana" x = false).
    { apply nameMatches_false. apply Hb. now left. }
    rewrite E. apply IH. intros y Hy. apply Hb. now right.
Qed.

(** C4.  On an invocation that passes validation the resolver returns
    an intent, never an error.  Its identifiers come from the roster;
    without the sentinel they are exactly those of the roster entries
    that are the first match of some candidate, so a candidate that
    occurs in no entry's name leaves no trace: taking it out of the list
    changes nothing.  When no candidate occurs in any name the list is
    empty, as for the candidate Carlos Reyes on the scenario roster. *)
Theorem unmatched_candidates_are_dropped
    (st : string) (names : list string) :
  firstCall response = Some (mkCall (Some (mkArgs (Some st) (Some names)))) ->
  Js.truthy (Some st) = true ->
  exists ids,
    processAttendanceCommand nullAccessMessage undefinedAccessMessage
      (ProxyReturned response) students
    = Returned (Some (mkIntent st ids))
    /\ (forall i, In i ids -> In i (map id students))
    /\ (Js.arrayIncludes (map Js.toLowerCase names) "all" = false ->
        forall i,
          In i ids <->
          exists n s, In n names
                      /\ FirstMatch students (Js.toLowerCase n) (Some s)
                      /\ id s = i)
    /\ ((forall n, In n names ->
                   Js.toLowerCase n <> "all"
                   /\ forall x, In x students ->
                                ~ NameMatch (Js.toLowerCase n) x) ->
        ids = [])
    /\ (forall before n after,
          names = before ++ n :: after ->
          Js.toLowerCase n <> "all" ->
          (forall x, In x students -> ~ NameMatch (Js.toLowerCase n) x) ->
          processAttendanceCommand nullAccessMessage undefinedAccessMessage
            (ProxyReturned response) students
          = processAttendanceCommand nullAccessMessage undefinedAccessMessage
              (invocation st (before ++ after)) students)
    /\ processAttendanceCommand nullAccessMessage undefinedAccessMessage
         (invocation "absent" ["Carlos Reyes"]) classRoster
       = Returned (Some (mkIntent "absent" [])).
Proof.
  intros Hcall Hst.
  rewrite (process_valid _ _ _ _ _ _ Hcall Hst).
  eexists. split; [reflexivity|].
  assert (Hin : forall i,
    In i (dedupFirst (matchedIds students (map Js.toLowerCase names)))
    <-> exists n s, In n names
                    /\ FirstMatch students (Js.toLowerCase n) (Some s)
                    /\ id s = i).
  { intros i. rewrite dedupFirst_In, matchedIds_In. split.
    - intros (name & s & Hn & E & Hi). apply in_map_iff in Hn.
      destruct Hn as (n & <- & Hn). exists n, s.
      split; [exact Hn|]. split; [|exact Hi].
      now apply foundStudent_FirstMatch_iff.
    - intros (n & s & Hn & E & Hi). exists (Js.toLowerCase n), s.
      split; [now apply in_map|]. split; [|exact Hi].
      now apply FirstMatch_found. }
  split; [|split; [|split; [|split; [|reflexivity]]]].
  - destruct (Js.arrayIncludes (map Js.toLowerCase names) "all");
      [trivial|].
    intros i Hi. apply (proj1 (dedupFirst_In _ _)) in Hi.
    now apply matchedIds_roster in Hi.
  - intros Hall i. rewrite Hall. apply Hin.
  - intros Hnone.
    destruct (Js.arrayIncludes (map Js.toLowerCase names) "all") eqn:E.
    + apply arrayIncludes_In, in_map_iff in E.
      destruct E as (n & El & Hn). now destruct (Hnone n Hn).
    + destruct (dedupFirst _) as [|i l] eqn:D; [reflexivity|].
      destruct (proj1 (Hin i) (or_introl eq_refl)) as (n & s & Hn & Es & _).
      destruct (Hnone n Hn) as [_ N].
      destruct Es as (b & a & -> & M & _).
      exfalso. apply (N s); [apply in_elt | exact M].
  - intros before n after -> Hn Hnone.
    rewrite (process_invocation _ _ students st (before ++ after) Hst).
    assert (F : foundStudent students (Js.toLowerCase n) = None)
      by now apply FirstMatch_found.
    rewrite !map_app, !arrayIncludes_app. cbn [map].
    assert (S : Js.arrayIncludes (Js.toLowerCase n :: map Js.toLowerCase after)
                                 "all"
                = Js.arrayIncludes (map Js.toLowerCase after) "all").
    { unfold Js.arrayIncludes. cbn [existsb].
      apply not_eq_sym, String.eqb_neq in Hn. now rewrite Hn. }
    rewrite S. unfold matchedIds. rewrite !flat_map_app. cbn [flat_map].
    now rewrite F.
Qed.

(** C5.  An invocation that carries no arguments at all, and so neither
    [status] nor [student_names], does not get the null sentinel: reading
    [args.status] throws inside the [try], and the resolver throws the
    classified error with the engine's message. *)
Theorem invocation_without_arguments_throws (rest : list FunctionCall) :
  processAttendanceCommand nullAccessMessage undefinedAccessMessage
    (ProxyReturned (mkResponse (Some (mkCall None :: rest)))) students
  = Thrown (handleGeminiError (Some (undefinedAccessMessage "status")))
  /\ processAttendanceCommand v8NullMessage v8UndefinedMessage
       (ProxyReturned (mkResponse (Some [mkCall None]))) classRoster
     = Thrown "AI Error: Cannot read properties of undefined (reading 'status')".
Proof. split; reflexivity. Qed.

(** X17.  A response with no tool invocation, and an invocation whose
    arguments are there but lack [status] or lack [student_names], make
    the resolver return the null sentinel; nothing is thrown. *)
Theorem no_actionable_intent_returns_null :
  firstCall response = None
  \/ (exists call callArgs,
        firstCall response = Some call
        /\ args call = Some callArgs
        /\ (status callArgs = None \/ student_names callArgs = None)) ->
  processAttendanceCommand nullAccessMessage undefinedAccessMessage
    (ProxyReturned response) students
  = Returned None.
Proof.
  unfold processAttendanceCommand.
  intros [-> | (call & callArgs & -> & -> & [H|H])]; [reflexivity| |];
    rewrite H; [reflexivity | now destruct (status callArgs)].
Qed.

(** C8.  The status of an invocation that passes validation is returned
    as the provider wrote it, whatever string it is. *)
Theorem status_is_passed_through
    (st : string) (names : list string) :
  firstCall response = Some (mkCall (Some (mkArgs (Some st) (Some names)))) ->
  Js.truthy (Some st) = true ->
  exists ids,
    processAttendanceCommand nullAccessMessage undefinedAccessMessage
      (ProxyReturned response) students
    = Returned (Some (mkIntent st ids)).
Proof.
  intros Hcall Hst. rewrite (process_valid _ _ _ _ _ _ Hcall Hst).
  eexists. reflexivity.
Qed.

(** C10.  Validation treats the two fields differently: an empty
    [status] string gives the null sentinel, an empty [student_names]
    array is accepted and gives the status with no identifiers. *)
Theorem empty_status_rejected_empty_names_accepted :
  (forall names,
      firstCall response = Some (mkCall (Some (mkArgs (Some "") names))) ->
      processAttendanceCommand nullAccessMessage undefinedAccessMessage
        (ProxyReturned response) students
      = Returned None)
  /\ (forall st,
        firstCall response = Some (mkCall (Some (mkArgs (Some st) (Some [])))) ->
        Js.truthy (Some st) = true ->
        processAttendanceCommand nullAccessMessage undefinedAccessMessage
          (ProxyReturned response) students
        = Returned (Some (mkIntent st []))).
Proof.
  split.
  - intros names H. unfold processAttendanceCommand. rewrite H.
    cbn [args status student_names]. now destruct names.
  - intros st H Hst. now rewrite (process_valid _ _ _ _ _ _ H Hst).
Qed.

End Resolver.

(** C9.  The empty candidate is a substring of every name, so on a
    non-empty roster it selects the first entry, and an invocation that
    passes validation with the empty string among its [student_names] has
    the first entry's identifier in its result. *)
Theorem empty_candidate_selects_first_entry
    (nullAccessMessage undefinedAccessMessage : string -> string)
    (response : ProviderResponse) (s0 : Student) (rest : list Student)
    (st : string) (names : list string) :
  firstCall response = Some (mkCall (Some (mkArgs (Some st) (Some names)))) ->
  Js.truthy (Some st) = true ->
  In "" names ->
  foundStudent (s0 :: rest) (Js.toLowerCase "") = Some s0
  /\ exists ids,
       processAttendanceCommand nullAccessMessage undefinedAccessMessage
         (ProxyReturned response) (s0 :: rest)
       = Returned (Some (mkIntent st ids))
       /\ In (id s0) ids.
Proof.
  intros Hcall Hst Hin.
  assert (F : foundStudent (s0 :: rest) (Js.toLowerCase "") = Some s0).
  { unfold foundStudent, nameMatches. simpl. now rewrite includes_empty. }
  split; [exact F|].
  rewrite (process_valid _ _ _ _ _ _ Hcall Hst). eexists. split; [reflexivity|].
  destruct (Js.arrayIncludes (map Js.toLowerCase names) "all").
  - now left.
  - apply dedupFirst_In, matchedIds_In.
    exists (Js.toLowerCase ""), s0. split; [|now split].
    now apply (in_map Js.toLowerCase) in Hin.
Qed.

(* ================================================================== *)
(** ** Properties of the error classifier *)
(* ================================================================== *)

(** C6, as amended.  The rules are tried in the order of the source on the
    lower-cased message: the credential message when it contains
    "api key not valid" or "api_key_invalid" in any casing; otherwise the
    quota message when it contains "quota"; otherwise the communication
    message when it contains "failed to call the ai service"; otherwise
    "AI Error: " followed by the original text; and the fixed generic
    message when there is no message string. *)
Theorem classifier_rules_in_source_order (message : string) :
  let key := ContainsAnyCase "api key not valid" message
             \/ ContainsAnyCase "api_key_invalid" message in
  let quota := ContainsAnyCase "quota" message in
  let comm := ContainsAnyCase "failed to call the ai service" message in
  (key -> handleGeminiError (Some message) = invalidKeyMessage)
  /\ (~ key -> quota -> handleGeminiError (Some message) = quotaMessage)
  /\ (~ key -> ~ quota -> comm ->
      handleGeminiError (Some message) = communicationMessage)
  /\ (~ key -> ~ quota -> ~ comm ->
      handleGeminiError (Some message) = "AI Error: " ++ message)
  /\ handleGeminiError None = genericFailureMessage.
Proof.
  cbv zeta. unfold handleGeminiError.
  rewrite <- !includes_anyCase.
  destruct (Js.includes (Js.toLowerCase message) "api key not valid");
  destruct (Js.includes (Js.toLowerCase message) "api_key_invalid");
  destruct (Js.includes (Js.toLowerCase message) "quota");
  destruct (Js.includes (Js.toLowerCase message)
                        "failed to call the ai service");
  simpl; repeat split; intros; try reflexivity; try discriminate;
    exfalso; intuition discriminate.
Qed.

(* ================================================================== *)
(** ** Properties of the proxy route *)
(* ================================================================== *)

(** C7.  The route answers 405 to every method other than POST.  To a POST
    it answers 500 with a JSON body holding [error] and [details] when the
    credential is not set or the provider call fails, and 200 with the
    provider's response object as the body when the call succeeds. *)
Theorem proxy_status_codes
    (API_KEY : option string) (generateContent : string -> json -> string + json)
    (req : VercelRequest) :
  let res := handler API_KEY generateContent req in
  (method req <> "POST" -> statusCode res = 405%Z)
  /\ (method req = "POST" -> Js.truthy API_KEY = false ->
      statusCode res = 500%Z
      /\ hasField "error" (sent res) = true
      /\ hasField "details" (sent res) = true)
  /\ (method req = "POST" ->
      forall apiKey message,
        API_KEY = Some apiKey -> Js.truthy API_KEY = true ->
        generateContent apiKey (body req) = inl message ->
        statusCode res = 500%Z
        /\ hasField "error" (sent res) = true
        /\ hasField "details" (sent res) = true
        /\ sent res
           = JObj [("error",
                    JStr "An error occurred while communicating with the AI service.");
                   ("details", JStr message)])
  /\ (method req = "POST" ->
      forall apiKey response,
        API_KEY = Some apiKey -> Js.truthy API_KEY = true ->
        generateContent apiKey (body req) = inr response ->
        res = mkReply 200 response).
Proof.
  cbv zeta. unfold handler.
  destruct (String.eqb_spec (method req) "POST") as [E|E]; simpl negb; cbv iota.
  - split; [intros N; contradiction|]. split; [|split].
    + intros _ Hk.
      destruct API_KEY as [k|]; [rewrite Hk|]; repeat split; reflexivity.
    + intros _ k message -> Hk Hg. rewrite Hk, Hg. repeat split.
    + intros _ k response -> Hk Hg. now rewrite Hk, Hg.
  - split; [reflexivity|]. repeat split; intros; contradiction.
Qed.

(* ================================================================== *)
(** ** The properties at concrete inputs *)
(* ================================================================== *)

(** An invocation with an empty status and the sentinel gives the null
    result, not the whole roster. *)
Lemma all_sentinel_with_empty_status :
  In "ALL" allCasings
  /\ processAttendanceCommand v8NullMessage v8UndefinedMessage
       (invocation "" ["ALL"]) classRoster
     = Returned None
  /\ processAttendanceCommand v8NullMessage v8UndefinedMessage
       (invocation "" ["ALL"]) classRoster
     <> Returned (Some (mkIntent "" (map id classRoster))).
Proof.
  split; [now left|]. split; [reflexivity | discriminate].
Qed.

Lemma all_sentinel_selects_whole_roster_witness :
  Js.truthy (Some "present") = true
  /\ In "aLl" allCasings
  /\ processAttendanceCommand v8NullMessage v8UndefinedMessage
       (invocation "present" ["Juan"; "aLl"]) classRoster
     = Returned (Some (mkIntent "present" ["s1"; "s2"; "s3"])).
Proof.
  split; [reflexivity|]. split; [simpl; auto 10|].
  refine (proj1 (all_sentinel_selects_whole_roster v8NullMessage v8UndefinedMessage
                   (mkResponse (Some [mkCall (Some (mkArgs (Some "present")
                                                     (Some ["Juan"; "aLl"])))]))
                   classRoster "present" ["Juan"; "aLl"] "aLl" _ _ _ _)).
  - reflexivity.
  - reflexivity.
  - simpl; auto.
  - simpl; auto 10.
Defined.

(** Two roster entries sharing an identifier: the sentinel path returns
    the identifier twice. *)
Lemma all_sentinel_repeats_shared_identifier :
  processAttendanceCommand v8NullMessage v8UndefinedMessage
    (invocation "present" ["ALL"]) sharedIdRoster
  = Returned (Some (mkIntent "present" ["s1"; "s1"]))
  /\ ~ NoDup ["s1"; "s1"].
Proof.
  split; [reflexivity|].
  intros H. inversion H as [|x l Hx _]. apply Hx. now left.
Qed.

Lemma resolved_ids_have_no_duplicates_witness :
  exists ids,
    processAttendanceCommand v8NullMessage v8UndefinedMessage
      (invocation "late" ["Ana"; "gomez"; "ANA GOMEZ"]) classRoster
    = Returned (Some (mkIntent "late" ids))
    /\ NoDup ids.
Proof.
  apply (resolved_ids_have_no_duplicates v8NullMessage v8UndefinedMessage
           (mkResponse (Some [mkCall (Some (mkArgs (Some "late")
                                (Some ["Ana"; "gomez"; "ANA GOMEZ"])))]))
           classRoster "late" ["Ana"; "gomez"; "ANA GOMEZ"]).
  - reflexivity.
  - reflexivity.
  - left. reflexivity.
Defined.

Lemma candidates_select_first_matching_entry_witness :
  processAttendanceCommand v8NullMessage v8UndefinedMessage
    (invocation "absent" ["Juan Dela Cruz"; "Maria Santos"]) classRoster
  = Returned (Some (mkIntent "absent" ["s1"; "s2"])).
Proof.
  refine (proj1 (candidates_select_first_matching_entry v8NullMessage v8UndefinedMessage
                   (mkResponse (Some [mkCall (Some (mkArgs (Some "absent")
                                  (Some ["Juan Dela Cruz"; "Maria Santos"])))]))
                   classRoster "absent" ["Juan Dela Cruz"; "Maria Santos"]
                   _ _ _));
    reflexivity.
Defined.

Lemma unmatched_candidates_are_dropped_witness :
  exists ids,
    processAttendanceCommand v8NullMessage v8UndefinedMessage
      (invocation "absent" ["Carlos Reyes"; "maria"]) classRoster
    = Returned (Some (mkIntent "absent" ids))
    /\ In "s2" ids
    /\ (forall i, In i ids -> i = "s2").
Proof.
  destruct (unmatched_candidates_are_dropped v8NullMessage v8UndefinedMessage
              (mkResponse (Some [mkCall (Some (mkArgs (Some "absent")
                                   (Some ["Carlos Reyes"; "maria"])))]))
              classRoster "absent" ["Carlos Reyes"; "maria"])
    as (ids & E & _ & Hiff & _).
  - reflexivity.
  - reflexivity.
  - exists ids. split; [exact E|]. specialize (Hiff eq_refl). split.
    + apply Hiff. exists "maria", maria. split; [simpl; auto|].
      split; [|reflexivity].
      exists [juan], [ana]. split; [reflexivity|]. split.
      * apply nameMatches_spec. reflexivity.
      * intros x [<-|[]] H. apply nameMatches_spec in H. discriminate H.
    + intros i Hi. apply Hiff in Hi.
      destruct Hi as (n & s & Hn & (b & a & Hr & M & _) & <-).
      assert (Hs : In s classRoster) by (rewrite Hr; apply in_elt).
      apply nameMatches_spec in M.
      destruct Hn as [<-|[<-|[]]]; destruct Hs as [<-|[<-|[<-|[]]]];
        try discriminate M; reflexivity.
Defined.

Lemma no_actionable_intent_returns_null_witness :
  processAttendanceCommand v8NullMessage v8UndefinedMessage
    (ProxyReturned
       (mkResponse (Some [mkCall (Some (mkArgs (Some "absent") None))])))
    classRoster
  = Returned None.
Proof.
  apply no_actionable_intent_returns_null.
  right. do 2 eexists. split; [reflexivity|]. split; [reflexivity|].
  right. reflexivity.
Defined.

(** A message naming both the key and the quota gets the credential
    message, and the proxy's own fallback text gets the communication
    message rather than being embedded. *)
Lemma classifier_claimed_rules_fail :
  ContainsAnyCase "quota" "API key not valid for this quota project"
  /\ handleGeminiError (Some "API key not valid for this quota project")
     <> quotaMessage
  /\ ~ ContainsAnyCase "quota" "Failed to call the AI service via proxy."
  /\ ~ ContainsAnyCase "api_key_invalid" "Failed to call the AI service via proxy."
  /\ ~ ContainsAnyCase "api key not valid" "Failed to call the AI service via proxy."
  /\ handleGeminiError (Some "Failed to call the AI service via proxy.")
     <> "AI Error: " ++ "Failed to call the AI service via proxy.".
Proof.
  split; [apply includes_anyCase; reflexivity|].
  split; [discriminate|].
  repeat split;
    try (intros H; apply includes_anyCase in H; discriminate H).
  discriminate.
Qed.

Lemma classifier_rules_in_source_order_witness :
  handleGeminiError (Some "You exceeded your current QUOTA.") = quotaMessage
  /\ handleGeminiError (Some "API_KEY_INVALID") = invalidKeyMessage
  /\ handleGeminiError (Some "Unexpected token < in JSON")
     = "AI Error: Unexpected token < in JSON".
Proof.
  split; [|split].
  - apply (classifier_rules_in_source_order "You exceeded your current QUOTA.").
    + intros [H|H]; apply includes_anyCase in H; discriminate H.
    + apply includes_anyCase. reflexivity.
  - apply (classifier_rules_in_source_order "API_KEY_INVALID").
    right. apply includes_anyCase. reflexivity.
  - apply (classifier_rules_in_source_order "Unexpected token < in JSON").
    + intros [H|H]; apply includes_anyCase in H; discriminate H.
    + intros H; apply includes_anyCase in H; discriminate H.
    + intros H; apply includes_anyCase in H; discriminate H.
Defined.

Lemma proxy_status_codes_witness :
  statusCode (handler (Some "k") (fun _ _ => inr JNull) (mkRequest "GET" JNull))
  = 405%Z
  /\ statusCode (handler None (fun _ _ => inr JNull) (mkRequest "POST" JNull))
     = 500%Z
  /\ handler (Some "k") (fun _ b => inr (JArr [b])) (mkRequest "POST" (JStr "q"))
     = mkReply 200 (JArr [JStr "q"]).
Proof.
  split; [|split].
  - apply (proxy_status_codes (Some "k") (fun _ _ => inr JNull)
                              (mkRequest "GET" JNull)).
    discriminate.
  - apply (proxy_status_codes None (fun _ _ => inr JNull)
                              (mkRequest "POST" JNull)); reflexivity.
  - apply (proxy_status_codes (Some "k") (fun _ b => inr (JArr [b]))
                              (mkRequest "POST" (JStr "q")) )
      with (apiKey := "k"); reflexivity.
Defined.

Lemma status_is_passed_through_witness :
  exists ids,
    processAttendanceCommand v8NullMessage v8UndefinedMessage
      (invocation "excused" ["Maria"]) classRoster
    = Returned (Some (mkIntent "excused" ids)).
Proof.
  apply (status_is_passed_through v8NullMessage v8UndefinedMessage
           (mkResponse (Some [mkCall (Some (mkArgs (Some "excused")
                                             (Some ["Maria"])))]))
           classRoster "excused" ["Maria"]); reflexivity.
Defined.

Lemma empty_candidate_selects_first_entry_witness :
  exists ids,
    processAttendanceCommand v8NullMessage v8UndefinedMessage
      (invocation "late" ["Ana"; ""]) classRoster
    = Returned (Some (mkIntent "late" ids))
    /\ In "s1" ids.
Proof.
  apply (empty_candidate_selects_first_entry v8NullMessage v8UndefinedMessage
           (mkResponse (Some [mkCall (Some (mkArgs (Some "late")
                                             (Some ["Ana"; ""])))]))
           juan [maria; ana] "late" ["Ana"; ""]).
  - reflexivity.
  - reflexivity.
  - simpl; auto.
Defined.

Lemma empty_status_rejected_empty_names_accepted_witness :
  processAttendanceCommand v8NullMessage v8UndefinedMessage
    (invocation "" ["Ana"]) classRoster = Returned None
  /\ processAttendanceCommand v8NullMessage v8UndefinedMessage
       (invocation "late" []) classRoster
     = Returned (Some (mkIntent "late" [])).
Proof.
  split.
  - apply (proj1 (empty_status_rejected_empty_names_accepted v8NullMessage v8UndefinedMessage
                    (mkResponse (Some [mkCall (Some (mkArgs (Some "")
                                                      (Some ["Ana"])))]))
                    classRoster) (Some ["Ana"])).
    reflexivity.
  - apply (proj2 (empty_status_rejected_empty_names_accepted v8NullMessage v8UndefinedMessage
                    (mkResponse (Some [mkCall (Some (mkArgs (Some "late")
                                                      (Some [])))]))
                    classRoster) "late"); reflexivity.
Defined.

(* ================================================================== *)
(** ** Further properties of name resolution *)
(* ================================================================== *)

Section Matching.

Local Open Scope list_scope.

Lemma Substring_refl (c : string) : Substring c c.
Proof. exists "", "". simpl. now rewrite append_empty_r. Qed.

Lemma Substring_append_l (c a b : string) :
  Substring c a -> Substring c (a ++ b)%string.
Proof.
  intros (pre & suf & ->). exists pre, (suf ++ b)%string.
  now rewrite !append_assoc.
Qed.

Lemma Substring_append_r (c a b : string) :
  Substring c b -> Substring c (a ++ b)%string.
Proof.
  intros (pre & suf & ->). exists (a ++ pre)%string, suf.
  now rewrite !append_assoc.
Qed.

Lemma spaced_name_is_not_sentinel (a b : string) :
  Js.toLowerCase (a ++ " " ++ b) <> "all".
Proof.
  rewrite toLowerCase_append.
  destruct a as [|c1 [|c2 [|c3 [|c4 a]]]]; simpl; intros H;
    discriminate H.
Qed.

(** X1.  The two clauses of the match that look at the first name alone
    and at the last name alone never decide anything: an entry is selected
    exactly when the candidate occurs in the lower-cased "first last" or
    in the lower-cased "last first". *)
Theorem name_alone_clauses_are_subsumed (name : string) (s : Student) :
  nameMatches name s
  = Js.includes (Js.toLowerCase (firstName s ++ " " ++ lastName s)) name
    || Js.includes (Js.toLowerCase (lastName s ++ " " ++ firstName s)) name.
Proof.
  unfold nameMatches.
  destruct (Js.includes (Js.toLowerCase (firstName s ++ " " ++ lastName s))
                        name) eqn:E1; [reflexivity|].
  destruct (Js.includes (Js.toLowerCase (lastName s ++ " " ++ firstName s))
                        name) eqn:E2; [reflexivity|].
  apply includes_false in E1. simpl.
  assert (F : Js.includes (Js.toLowerCase (firstName s)) name = false).
  { apply includes_false. intros H. apply E1.
    rewrite toLowerCase_append. now apply Substring_append_l. }
  assert (L : Js.includes (Js.toLowerCase (lastName s)) name = false).
  { apply includes_false. intros H. apply E1.
    rewrite !toLowerCase_append. now do 2 apply Substring_append_r. }
  now rewrite F, L.
Qed.

(** X2.  A candidate that is the "First Last" of a roster member, as the
    prompt lists it, is never dropped: the resolver returns exactly one
    identifier, that of a roster entry the name selects, and it is the
    member's own entry when no other entry is selected by that name. *)
Theorem full_name_always_resolves
    (nullAccessMessage undefinedAccessMessage : string -> string)
    (students : list Student) (st : string) (s : Student) :
  let fullName := (firstName s ++ " " ++ lastName s)%string in
  Js.truthy (Some st) = true ->
  In s students ->
  exists t,
    In t students
    /\ NameMatch (Js.toLowerCase fullName) t
    /\ processAttendanceCommand nullAccessMessage undefinedAccessMessage
         (invocation st [fullName]) students
       = Returned (Some (mkIntent st [id t]))
    /\ ((forall x, In x students ->
                   NameMatch (Js.toLowerCase fullName) x -> x = s) ->
        t = s).
Proof.
  intros fullName Hst Hs.
  assert (M : nameMatches (Js.toLowerCase fullName) s = true).
  { apply nameMatches_spec. left. apply Substring_refl. }
  destruct (foundStudent students (Js.toLowerCase fullName)) as [t|] eqn:F.
  - destruct (find_some _ _ F) as [Ht Mt]. apply nameMatches_spec in Mt.
    exists t. split; [exact Ht|]. split; [exact Mt|]. split.
    + rewrite (process_invocation _ _ students st [fullName] Hst).
      assert (A : Js.arrayIncludes (map Js.toLowerCase [fullName]) "all"
                  = false).
      { destruct (Js.arrayIncludes (map Js.toLowerCase [fullName]) "all")
          eqn:A; [|reflexivity].
        apply arrayIncludes_In in A. destruct A as [A|[]].
        now apply spaced_name_is_not_sentinel in A. }
      rewrite A. unfold matchedIds. simpl. now rewrite F.
    + intros U. now apply U.
  - pose proof (find_none _ _ F s Hs) as N. congruence.
Qed.

Lemma resolveLoop_app (students : list Student) (a b acc : list string) :
  resolveLoop students (a ++ b) acc
  = resolveLoop students b (resolveLoop students a acc).
Proof. unfold resolveLoop. apply fold_left_app. Qed.

(** X3.  Candidates are resolved left to right and the result only grows
    at its end: the identifiers resolved from a list of candidates stay,
    in place, at the front of what is resolved from any extension of the
    list, and what the extension adds was not there before. *)
Theorem earlier_candidates_keep_their_places
    (nullAccessMessage undefinedAccessMessage : string -> string)
    (students : list Student) (st : string) (names1 names2 : list string) :
  Js.truthy (Some st) = true ->
  Js.arrayIncludes (map Js.toLowerCase (names1 ++ names2)) "all" = false ->
  exists ids1 extra,
    processAttendanceCommand nullAccessMessage undefinedAccessMessage
      (invocation st names1) students
    = Returned (Some (mkIntent st ids1))
    /\ processAttendanceCommand nullAccessMessage undefinedAccessMessage
         (invocation st (names1 ++ names2)) students
       = Returned (Some (mkIntent st (ids1 ++ extra)))
    /\ (forall i, In i extra -> ~ In i ids1).
Proof.
  intros Hst Hall.
  assert (H1 : Js.arrayIncludes (map Js.toLowerCase names1) "all" = false).
  { rewrite map_app, arrayIncludes_app in Hall.
    now apply orb_false_iff in Hall. }
  rewrite (process_invocation _ _ students st names1 Hst), H1.
  rewrite (process_invocation _ _ students st (names1 ++ names2) Hst), Hall.
  rewrite <- !resolveLoop_spec. rewrite map_app, resolveLoop_app.
  rewrite (resolveLoop_dedup students (map Js.toLowerCase names2)).
  do 2 eexists. split; [reflexivity|]. split; [reflexivity|].
  intros i Hi Hin. apply (proj1 (dedupFirst_In _ _)) in Hi.
  apply filter_In in Hi. destruct Hi as [_ Hi].
  apply arrayIncludes_In in Hin. now rewrite Hin in Hi.
Qed.

Lemma dedupFirst_length (l : list string) :
  List.length (dedupFirst l) <= List.length l.
Proof.
  induction l as [|x l IH]; simpl; [lia|].
  pose proof (filter_length_le (fun y => negb (String.eqb y x))
                               (dedupFirst l)). lia.
Qed.

Lemma matchedIds_length (students : list Student) (names : list string) :
  List.length (matchedIds students names) <= List.length names.
Proof.
  unfold matchedIds. induction names as [|n names IH]; simpl; [lia|].
  rewrite length_app. destruct (foundStudent students n); simpl; lia.
Qed.

(** X4.  On an invocation that passes validation the resolver never
    returns more identifiers than the roster has entries, and without the
    sentinel never more than there are candidates; on an empty roster it
    returns none. *)
Theorem resolved_ids_are_bounded
    (nullAccessMessage undefinedAccessMessage : string -> string)
    (students : list Student) (st : string) (names : list string) :
  Js.truthy (Some st) = true ->
  exists ids,
    processAttendanceCommand nullAccessMessage undefinedAccessMessage
      (invocation st names) students
    = Returned (Some (mkIntent st ids))
    /\ List.length ids <= List.length students
    /\ (Js.arrayIncludes (map Js.toLowerCase names) "all" = false ->
        List.length ids <= List.length names)
    /\ (students = [] -> ids = []).
Proof.
  intros Hst. rewrite (process_invocation _ _ students st names Hst).
  eexists. split; [reflexivity|].
  destruct (Js.arrayIncludes (map Js.toLowerCase names) "all") eqn:E.
  - split; [now rewrite length_map|]. split; [discriminate|].
    now intros ->.
  - assert (B : List.length (dedupFirst (matchedIds students
                                      (map Js.toLowerCase names)))
                <= List.length students).
    { rewrite <- (length_map id students).
      apply NoDup_incl_length; [apply dedupFirst_NoDup|].
      intros i Hi. apply (proj1 (dedupFirst_In _ _)) in Hi.
      now apply matchedIds_roster in Hi. }
    split; [exact B|]. split.
    + intros _. etransitivity; [apply dedupFirst_length|].
      etransitivity; [apply matchedIds_length|]. now rewrite length_map.
    + intros ->. simpl in B.
      destruct (dedupFirst _); [reflexivity | simpl in B; lia].
Qed.

(** X5.  The whole-roster shortcut needs the sentinel as a whole entry:
    when no entry of [student_names] is one of the eight spellings of ALL,
    every entry, also one that merely contains the word, is matched
    against the roster as a candidate. *)
Theorem sentinel_must_be_a_whole_entry
    (nullAccessMessage undefinedAccessMessage : string -> string)
    (students : list Student) (st : string) (names : list string) :
  Js.truthy (Some st) = true ->
  (forall n, In n names -> ~ In n allCasings) ->
  processAttendanceCommand nullAccessMessage undefinedAccessMessage
    (invocation st names) students
  = Returned (Some (mkIntent st
      (dedupFirst (matchedIds students (map Js.toLowerCase names))))).
Proof.
  intros Hst Hn. rewrite (process_invocation _ _ students st names Hst).
  now rewrite (proj2 (sentinel_absent names) Hn).
Qed.

Lemma nameMatches_ignoring_case (name : string) (s s' : Student) :
  SameIgnoringCase s s' -> nameMatches name s = nameMatches name s'.
Proof.
  intros (_ & F & L). unfold nameMatches.
  rewrite !toLowerCase_append. now rewrite F, L.
Qed.

Lemma foundStudent_ignoring_case (name : string)
    (students students' : list Student) :
  Forall2 SameIgnoringCase students students' ->
  option_map id (foundStudent students name)
  = option_map id (foundStudent students' name).
Proof.
  unfold foundStudent. induction 1 as [|s s' l l' Hs _ IH]; simpl;
    [reflexivity|].
  rewrite <- (nameMatches_ignoring_case name s s' Hs).
  destruct (nameMatches name s); [simpl; f_equal; apply Hs | exact IH].
Qed.

(** X6.  Matching ignores letter-casing on both sides: two candidate
    lists that agree after lower-casing, resolved against two rosters
    whose entries agree up to the casing of their names, give the same
    result. *)
Theorem resolution_ignores_letter_casing
    (nullAccessMessage undefinedAccessMessage : string -> string)
    (students students' : list Student) (st : string)
    (names names' : list string) :
  map Js.toLowerCase names = map Js.toLowerCase names' ->
  Forall2 SameIgnoringCase students students' ->
  processAttendanceCommand nullAccessMessage undefinedAccessMessage
    (invocation st names) students
  = processAttendanceCommand nullAccessMessage undefinedAccessMessage
      (invocation st names') students'.
Proof.
  intros Hn Hs. unfold processAttendanceCommand, invocation. simpl.
  destruct (negb (negb (String.eqb st ""))); [reflexivity|].
  rewrite <- Hn.
  assert (I : map id students = map id students').
  { induction Hs as [|s s' l l' H _ IH]; simpl; [reflexivity|].
    f_equal; [apply H | exact IH]. }
  assert (M : forall l, matchedIds students l = matchedIds students' l).
  { intros l. unfold matchedIds. apply flat_map_ext. intros n.
    pose proof (foundStudent_ignoring_case n _ _ Hs) as E.
    destruct (foundStudent students n), (foundStudent students' n);
      simpl in E; congruence. }
  rewrite !resolveLoop_spec, M, I. reflexivity.
Qed.

End Matching.

(* ================================================================== *)
(** ** The client and the route together *)
(* ================================================================== *)

Section EndToEnd.

Local Open Scope list_scope.

Variable nullAccessMessage : string -> string.
Variable undefinedAccessMessage : string -> string.
Variable ToString : json -> string.
Variable received : json -> json.
Variable API_KEY : option string.
Variable generateContent : string -> json -> string + json.

Local Abbreviation call := (callApiProxy nullAccessMessage ToString).
Local Abbreviation check := (checkApiStatus nullAccessMessage ToString).

Lemma handler_post_succeeds (modelOptions response : json) (apiKey : string) :
  API_KEY = Some apiKey -> Js.truthy API_KEY = true ->
  generateContent apiKey modelOptions = inr response ->
  handler API_KEY generateContent (mkRequest "POST" modelOptions)
  = mkReply 200 response.
Proof.
  intros E Ht Hg. unfold handler. rewrite E in *. cbn [method body].
  rewrite Ht, Hg. reflexivity.
Qed.

Lemma handler_post_fails (modelOptions : json) (apiKey message : string) :
  API_KEY = Some apiKey -> Js.truthy API_KEY = true ->
  generateContent apiKey modelOptions = inl message ->
  handler API_KEY generateContent (mkRequest "POST" modelOptions)
  = mkReply 500
      (JObj [("error",
              JStr "An error occurred while communicating with the AI service.");
             ("details", JStr message)]).
Proof.
  intros E Ht Hg. unfold handler. rewrite E in *. cbn [method body].
  rewrite Ht, Hg. reflexivity.
Qed.

Lemma handler_post_without_key (modelOptions : json) :
  Js.truthy API_KEY = false ->
  handler API_KEY generateContent (mkRequest "POST" modelOptions)
  = mkReply 500
      (JObj [("error",
              JStr "An error occurred while communicating with the AI service.");
             ("details", JStr "API_KEY is not set in environment variables.")]).
Proof.
  intros Ht. unfold handler. cbn [method body].
  destruct API_KEY as [k|]; [rewrite Ht|]; reflexivity.
Qed.

Lemma call_on_failure_reply (message : string) :
  call (served received (mkReply 500
          (JObj [("error",
                  JStr "An error occurred while communicating with the AI service.");
                 ("details", JStr message)])))
  = Thrown (if String.eqb message ""
            then "An error occurred while communicating with the AI service."
            else message).
Proof.
  unfold served, callApiProxy, orElse, property. cbn [statusCode sent].
  cbv zeta. change ((200 <=? 500)%Z && (500 <=? 299)%Z) with false. cbv iota.
  change (field "details" _) with (Some (JStr message)).
  change (field "error" _)
    with (Some (JStr "An error occurred while communicating with the AI service.")).
  cbn [jsonTruthy].
  destruct (String.eqb message "") eqn:E; cbn [negb]; cbv iota;
    cbn [jsonTruthy]; rewrite ?E; reflexivity.
Qed.

(** X8.  When the provider call throws on the server, [callApiProxy]
    throws on the client with the provider's message; an empty message is
    replaced by the route's own text.  The fall-back text of
    [callApiProxy] is never what comes out. *)
Theorem provider_failure_message_crosses_the_proxy
    (modelOptions : json) (apiKey message : string) :
  API_KEY = Some apiKey -> Js.truthy API_KEY = true ->
  generateContent apiKey modelOptions = inl message ->
  call (served received (handler API_KEY generateContent
                        (mkRequest "POST" modelOptions)))
  = Thrown (if String.eqb message ""
            then "An error occurred while communicating with the AI service."
            else message).
Proof.
  intros E Ht Hg. rewrite (handler_post_fails _ _ _ E Ht Hg).
  apply call_on_failure_reply.
Qed.

(** X9.  A server without a key shows to the user as one message: the
    status check reports an error with it, and the attendance resolver
    throws it instead of returning a result. *)
Theorem missing_key_reaches_the_user
    (view : json -> ProviderResponse) (modelOptions : json)
    (students : list Student) :
  Js.truthy API_KEY = false ->
  check (served received (handler API_KEY generateContent
                         (mkRequest "POST" statusProbe)))
  = mkReport "error" "AI Error: API_KEY is not set in environment variables."
  /\ processAttendanceCommand nullAccessMessage undefinedAccessMessage
       (settled view
          (call (served received (handler API_KEY generateContent
                                 (mkRequest "POST" modelOptions)))))
       students
     = Thrown "AI Error: API_KEY is not set in environment variables.".
Proof.
  intros Ht. unfold checkApiStatus.
  rewrite !(handler_post_without_key _ Ht), !call_on_failure_reply.
  split; reflexivity.
Qed.

(** X10.  The status check reports success exactly when the server holds a
    key and the provider answers the probe request; what the provider
    answers plays no part. *)
Theorem status_check_succeeds_iff_provider_answers :
  reportStatus (check (served received (handler API_KEY generateContent
                                       (mkRequest "POST" statusProbe))))
  = "success"
  <-> exists apiKey response,
        API_KEY = Some apiKey /\ Js.truthy API_KEY = true
        /\ generateContent apiKey statusProbe = inr response.
Proof.
  unfold checkApiStatus.
  destruct (Js.truthy API_KEY) eqn:Ht.
  - assert (Hk : exists k, API_KEY = Some k)
      by (destruct API_KEY; [eauto | discriminate]).
    destruct Hk as [k E].
    destruct (generateContent k statusProbe) as [m|r] eqn:Hg.
    + rewrite (handler_post_fails _ _ _ E Ht Hg), call_on_failure_reply.
      split; [discriminate|].
      intros (k' & r & Ek & _ & Hr). congruence.
    + rewrite (handler_post_succeeds _ _ _ E Ht Hg).
      split; [|reflexivity]. intros _. now exists k, r.
  - rewrite (handler_post_without_key _ Ht), call_on_failure_reply.
    split; [discriminate|]. intros (k & r & _ & F & _). discriminate F.
Qed.

(** X11.  A reply that is not OK and whose body names no reason (neither
    [details] nor [error] holds a truthy value) is reported to the user as
    a communication failure, by the status check and by the resolver. *)
Theorem bare_failure_reads_as_communication_error
    (view : json -> ProviderResponse) (errorData : json)
    (students : list Student) :
  errorData <> JNull ->
  jsonTruthy (property "details" errorData) = false ->
  jsonTruthy (property "error" errorData) = false ->
  check (FetchSettled false (inr errorData))
  = mkReport "error" communicationMessage
  /\ processAttendanceCommand nullAccessMessage undefinedAccessMessage
       (settled view (call (FetchSettled false (inr errorData)))) students
     = Thrown communicationMessage.
Proof.
  intros Hn Hd He.
  assert (C : call (FetchSettled false (inr errorData))
              = Thrown "Failed to call the AI service via proxy.").
  { unfold callApiProxy, orElse.
    destruct errorData; try contradiction; now rewrite Hd, He. }
  unfold checkApiStatus. rewrite C. split; reflexivity.
Qed.

(** X12.  The route consults the provider only for a POST request while a
    key is set, and then only with that key and the request body: two
    providers that agree there get the same reply. *)
Theorem proxy_consults_provider_only_on_the_request
    (generateContent' : string -> json -> string + json)
    (req : VercelRequest) :
  method req <> "POST"
  \/ Js.truthy API_KEY = false
  \/ (exists apiKey, API_KEY = Some apiKey
                     /\ generateContent apiKey (body req)
                        = generateContent' apiKey (body req)) ->
  handler API_KEY generateContent req = handler API_KEY generateContent' req.
Proof.
  unfold handler. intros [H | [H | (k & E & H)]].
  - apply String.eqb_neq in H. now rewrite H.
  - destruct API_KEY as [k|]; [rewrite H|]; reflexivity.
  - rewrite E. now rewrite H.
Qed.

(** X13.  The status code decides the case: 405 exactly for a method other
    than POST, also when no key is set; 200 exactly for a POST with a key
    set and an answering provider; and 500 in every other case. *)
Theorem proxy_status_code_decides (req : VercelRequest) :
  let res := handler API_KEY generateContent req in
  (statusCode res = 405%Z <-> method req <> "POST")
  /\ (statusCode res = 200%Z
      <-> method req = "POST"
          /\ exists apiKey response,
               API_KEY = Some apiKey /\ Js.truthy API_KEY = true
               /\ generateContent apiKey (body req) = inr response)
  /\ (statusCode res = 405%Z \/ statusCode res = 200%Z
      \/ statusCode res = 500%Z).
Proof.
  cbv zeta. unfold handler.
  destruct (String.eqb_spec (method req) "POST") as [E|E]; simpl negb;
    cbv iota.
  - destruct API_KEY as [k|] eqn:K.
    + destruct (Js.truthy (Some k)) eqn:Ht.
      * destruct (generateContent k (body req)) as [m|r] eqn:Hg; simpl.
        -- split; [split; [discriminate | now intros N]|].
           split; [|auto]. split; [discriminate|].
           intros (_ & k' & r & Ek & _ & Hr). injection Ek as <-. congruence.
        -- split; [split; [discriminate | now intros N]|].
           split; [|auto]. split; [|reflexivity].
           intros _. split; [exact E|]. now exists k, r.
      * simpl. split; [split; [discriminate | now intros N]|].
        split; [|auto]. split; [discriminate|].
        intros (_ & k' & r & _ & F & _). discriminate F.
    + simpl. split; [split; [discriminate | now intros N]|].
      split; [|auto]. split; [discriminate|].
      intros (_ & k' & r & F & _). discriminate F.
  - simpl. split; [split; [now intros _ | reflexivity]|].
    split; [|auto]. split; [discriminate | now intros [F _]].
Qed.

End EndToEnd.

(* ================================================================== *)
(** ** Properties of the generators' own processing *)
(* ================================================================== *)

Section Generators.

Local Open Scope list_scope.

(** X14.  [getInspirationalQuote] returns the parsed object, unchanged,
    exactly when it holds a truthy [quote] and a truthy [author]; a parsed
    value other than [null] that lacks one of them is turned into the one
    message about an invalid quote structure. *)
Theorem quote_requires_quote_and_author
    (nullAccessMessage : string -> string) (parsed : string + json) :
  (forall result,
      getInspirationalQuote nullAccessMessage parsed = Returned result
      <-> parsed = inr result
          /\ jsonTruthy (property "quote" result) = true
          /\ jsonTruthy (property "author" result) = true)
  /\ (forall result,
        parsed = inr result -> result <> JNull ->
        jsonTruthy (property "quote" result) = false
        \/ jsonTruthy (property "author" result) = false ->
        getInspirationalQuote nullAccessMessage parsed
        = Thrown "AI Error: AI returned an invalid quote structure.").
Proof.
  assert (K : forall r,
    (jsonTruthy (property "quote" r) && jsonTruthy (property "author" r) = true
     -> getInspirationalQuote nullAccessMessage (inr r) = Returned r)
    /\ (jsonTruthy (property "quote" r) && jsonTruthy (property "author" r)
        = false
        -> exists m, getInspirationalQuote nullAccessMessage (inr r)
                     = Thrown m)).
  { intros r. destruct r; cbn [getInspirationalQuote property jsonTruthy];
      try (split; [discriminate | intros _; eexists; reflexivity]).
    destruct (jsonTruthy (field "quote" fields));
      destruct (jsonTruthy (field "author" fields)); simpl;
      (split; [try discriminate; reflexivity
              | try discriminate; intros _; eexists; reflexivity]). }
  split.
  - intros result. destruct parsed as [m|r].
    + split; [discriminate | intros [F _]; discriminate F].
    + destruct (K r) as [Kt Kf].
      destruct (jsonTruthy (property "quote" r)
                && jsonTruthy (property "author" r)) eqn:B.
      * rewrite (Kt eq_refl). apply andb_true_iff in B. split.
        -- intros E. injection E as <-. now split.
        -- intros (E & _). now injection E as <-.
      * destruct (Kf eq_refl) as [m ->]. split; [discriminate|].
        intros (E & Q & A). injection E as <-. rewrite Q, A in B.
        discriminate B.
  - intros result -> Hn H.
    destruct result; try contradiction;
      cbn [getInspirationalQuote property jsonTruthy negb orb];
      try reflexivity.
    cbn [property] in H.
    destruct H as [H|H]; rewrite H; [|rewrite orb_true_r]; reflexivity.
Qed.

Lemma split_count (A : Type) (p q : A -> bool) (l : list A) :
  (forall a, p a = true -> q a = false) ->
  List.length (filter (fun a => p a || q a) l)
  = List.length (filter p l) + List.length (filter q l).
Proof.
  intros D. induction l as [|a l IH]; simpl; [reflexivity|].
  destruct (p a) eqn:P; simpl.
  - rewrite (D a P). simpl. now rewrite IH.
  - destruct (q a); simpl; rewrite IH; lia.
Qed.

(** Grouping a list by distinct keys lists every element with a known key
    once. *)
Lemma grouped_count (A : Type) (key : A -> string) (l : list A)
    (ids : list string) :
  NoDup ids ->
  list_sum (map (fun i => List.length
                            (filter (fun a => String.eqb (key a) i) l)) ids)
  = List.length (filter (fun a => Js.arrayIncludes ids (key a)) l).
Proof.
  induction 1 as [|i ids Hi _ IH]; simpl.
  - induction l as [|a l IHl]; simpl; [reflexivity | exact IHl].
  - rewrite IH. symmetry. apply split_count.
    intros a E. apply String.eqb_eq in E. subst i.
    destruct (Js.arrayIncludes ids (key a)) eqn:F; [|reflexivity].
    apply arrayIncludes_In in F. contradiction.
Qed.

(** X15.  The class data sent for analysis has one entry per roster
    entry, in roster order and under its "First Last".  When the roster's
    identifiers are pairwise distinct, the entries together list each
    grade and each anecdote of a roster member once; records of a student
    who is not in the roster are left out. *)
Theorem class_data_lists_known_records_once
    (Quarter Number : Type) (percentage : Number -> Number -> string)
    (students : list Student) (grades : list (Grade Quarter Number))
    (anecdotes : list Anecdote) :
  let data := studentData Quarter Number percentage students grades anecdotes in
  NoDup (map id students) ->
  map dataName data
  = map (fun s => (firstName s ++ " " ++ lastName s)%string) students
  /\ list_sum (map (fun d => List.length (dataGrades d)) data)
     = List.length (filter (fun g => Js.arrayIncludes (map id students)
                                                      (gradeStudentId g))
                           grades)
  /\ list_sum (map (fun d => List.length (dataAnecdotes d)) data)
     = List.length (filter (fun a => Js.arrayIncludes (map id students)
                                                      (anecdoteStudentId a))
                           anecdotes)
  /\ list_sum (map (fun d => List.length (dataGrades d)) data)
     <= List.length grades.
Proof.
  intros data Hd. unfold data, studentData.
  rewrite !map_map. cbn [dataName dataGrades dataAnecdotes].
  assert (G : list_sum
                (map (fun s => List.length
                   (map (fun g => mkGradeLine Quarter (subject Quarter Number g)
                                   (quarter Quarter Number g)
                                   (percentage (score Quarter Number g)
                                               (maxScore Quarter Number g)))
                      (filter (fun g => String.eqb (gradeStudentId g) (id s))
                              grades))) students)
              = List.length (filter (fun g => Js.arrayIncludes (map id students)
                                                (gradeStudentId g)) grades)).
  { rewrite <- (grouped_count _ (@gradeStudentId Quarter Number) grades _ Hd).
    rewrite map_map. f_equal. apply map_ext. intros s. apply length_map. }
  split; [reflexivity|]. split; [exact G|]. split.
  - rewrite <- (grouped_count _ anecdoteStudentId anecdotes _ Hd).
    rewrite map_map. f_equal. apply map_ext. intros s. apply length_map.
  - rewrite G. apply filter_length_le.
Qed.

Lemma concat_holds_each (sep x : string) (l : list string) :
  In x l -> Substring x (String.concat sep l).
Proof.
  induction l as [|y l IH]; [intros []|].
  intros [->|H].
  - destruct l; simpl; [apply Substring_refl|].
    apply Substring_append_l, Substring_refl.
  - destruct l as [|z l]; [destruct H|].
    change (String.concat sep (y :: z :: l))
      with (y ++ sep ++ String.concat sep (z :: l))%string.
    now do 2 apply Substring_append_r; apply IH.
Qed.

(** X16.  The roster line of the prompts names every roster member: the
    "First Last" of each entry occurs in it, and the line is empty for an
    empty roster. *)
Theorem roster_line_names_every_member (students : list Student) :
  (forall s, In s students ->
             Substring (firstName s ++ " " ++ lastName s)%string
                       (studentList students))
  /\ (students = [] -> studentList students = "").
Proof.
  split.
  - intros s H. unfold studentList. apply concat_holds_each.
    apply (in_map (fun s => (firstName s ++ " " ++ lastName s)%string)).
    exact H.
  - now intros ->.
Qed.

End Generators.

(* ================================================================== *)
(** ** The further properties at concrete inputs *)
(* ================================================================== *)

Lemma full_name_always_resolves_witness :
  exists t,
    In t classRoster
    /\ processAttendanceCommand v8NullMessage v8UndefinedMessage
         (invocation "late" ["Ana Gomez"]) classRoster
       = Returned (Some (mkIntent "late" [id t])).
Proof.
  destruct (full_name_always_resolves v8NullMessage v8UndefinedMessage classRoster "late" ana)
    as (t & Ht & _ & E & _).
  - reflexivity.
  - simpl; auto.
  - exists t. split; [exact Ht | exact E].
Defined.

Lemma earlier_candidates_keep_their_places_witness :
  exists ids1 extra,
    processAttendanceCommand v8NullMessage v8UndefinedMessage
      (invocation "absent" ["Maria"]) classRoster
    = Returned (Some (mkIntent "absent" ids1))
    /\ processAttendanceCommand v8NullMessage v8UndefinedMessage
         (invocation "absent" (["Maria"] ++ ["Ana"; "maria santos"]))
         classRoster
       = Returned (Some (mkIntent "absent" (ids1 ++ extra)))
    /\ (forall i, In i extra -> ~ In i ids1).
Proof.
  apply (earlier_candidates_keep_their_places v8NullMessage v8UndefinedMessage
           classRoster "absent" ["Maria"] ["Ana"; "maria santos"]);
    reflexivity.
Defined.

Lemma resolved_ids_are_bounded_witness :
  exists ids,
    processAttendanceCommand v8NullMessage v8UndefinedMessage
      (invocation "present" ["Juan"; "juan"; "Dela Cruz"; "nobody"]) classRoster
    = Returned (Some (mkIntent "present" ids))
    /\ List.length ids <= 3.
Proof.
  destruct (resolved_ids_are_bounded v8NullMessage v8UndefinedMessage
              classRoster "present" ["Juan"; "juan"; "Dela Cruz"; "nobody"])
    as (ids & E & B & _).
  - reflexivity.
  - exists ids. split; [exact E | exact B].
Defined.

Lemma sentinel_must_be_a_whole_entry_witness :
  processAttendanceCommand v8NullMessage v8UndefinedMessage
    (invocation "present" ["all students"; " ALL"]) classRoster
  = Returned (Some (mkIntent "present" [])).
Proof.
  apply (sentinel_must_be_a_whole_entry v8NullMessage v8UndefinedMessage
           classRoster "present" ["all students"; " ALL"]).
  - reflexivity.
  - unfold allCasings. simpl. intros n [<-|[<-|[]]] H;
      repeat (destruct H as [H|H]; [discriminate H|]); exact H.
Defined.

Lemma resolution_ignores_letter_casing_witness :
  processAttendanceCommand v8NullMessage v8UndefinedMessage
    (invocation "late" ["ana"; "SANTOS"]) classRoster
  = processAttendanceCommand v8NullMessage v8UndefinedMessage
      (invocation "late" ["ANA"; "santos"])
      [mkStudent "s1" "JUAN" "DELA CRUZ"; mkStudent "s2" "maria" "santos";
       mkStudent "s3" "aNa" "GoMeZ"].
Proof.
  apply resolution_ignores_letter_casing.
  - reflexivity.
  - repeat constructor.
Defined.

Lemma provider_failure_message_crosses_the_proxy_witness :
  callApiProxy (fun _ => "") (fun _ => "")
    (served (fun document => document) (handler (Some "k")
                     (fun _ _ => inl "You exceeded your current quota.")
                     (mkRequest "POST" JNull)))
  = Thrown "You exceeded your current quota.".
Proof.
  apply (provider_failure_message_crosses_the_proxy
           (fun _ => "") (fun _ => "") (fun document => document) (Some "k")
           (fun _ _ => inl "You exceeded your current quota.")
           JNull "k" "You exceeded your current quota."); reflexivity.
Defined.

Lemma missing_key_reaches_the_user_witness :
  processAttendanceCommand v8NullMessage v8UndefinedMessage
    (settled (fun _ => mkResponse None)
       (callApiProxy v8NullMessage (fun _ => "")
          (served (fun document => document)
                  (handler (Some "") (fun _ _ => inr JNull)
                           (mkRequest "POST" JNull)))))
    classRoster
  = Thrown "AI Error: API_KEY is not set in environment variables.".
Proof.
  apply (missing_key_reaches_the_user
           v8NullMessage v8UndefinedMessage (fun _ => "")
           (fun document => document) (Some "") (fun _ _ => inr JNull)
           (fun _ => mkResponse None) JNull classRoster).
  reflexivity.
Defined.

Lemma status_check_succeeds_iff_provider_answers_witness :
  reportStatus
    (checkApiStatus (fun _ => "") (fun _ => "")
       (served (fun document => document)
             (handler (Some "k") (fun _ _ => inr JNull)
                        (mkRequest "POST" statusProbe))))
  = "success".
Proof.
  apply (status_check_succeeds_iff_provider_answers
           (fun _ => "") (fun _ => "") (fun document => document)
           (Some "k") (fun _ _ => inr JNull)).
  exists "k", JNull. repeat split.
Defined.

Lemma bare_failure_reads_as_communication_error_witness :
  checkApiStatus (fun _ => "") (fun _ => "")
    (FetchSettled false (inr (JObj [("details", JStr ""); ("error", JNull)])))
  = mkReport "error" communicationMessage.
Proof.
  apply (bare_failure_reads_as_communication_error
           (fun _ => "") v8UndefinedMessage (fun _ => "")
           (fun _ => mkResponse None)
           (JObj [("details", JStr ""); ("error", JNull)]) classRoster).
  - discriminate.
  - reflexivity.
  - reflexivity.
Defined.

Lemma proxy_consults_provider_only_on_the_request_witness :
  handler None (fun _ _ => inr JNull) (mkRequest "POST" JNull)
  = handler None (fun _ _ => inl "down") (mkRequest "POST" JNull).
Proof.
  apply proxy_consults_provider_only_on_the_request.
  right. left. reflexivity.
Defined.

Lemma proxy_status_code_decides_witness :
  statusCode (handler None (fun _ _ => inr JNull) (mkRequest "DELETE" JNull))
  = 405%Z.
Proof.
  apply (proxy_status_code_decides None (fun _ _ => inr JNull)
                                   (mkRequest "DELETE" JNull)).
  discriminate.
Defined.

Lemma quote_requires_quote_and_author_witness :
  getInspirationalQuote (fun _ => "")
    (inr (JObj [("quote", JStr "Teach well."); ("author", JStr "")]))
  = Thrown "AI Error: AI returned an invalid quote structure.".
Proof.
  apply (proj2 (quote_requires_quote_and_author (fun _ => "")
                  (inr (JObj [("quote", JStr "Teach well.");
                              ("author", JStr "")])))
               (JObj [("quote", JStr "Teach well."); ("author", JStr "")])).
  - reflexivity.
  - discriminate.
  - right. reflexivity.
Defined.

Lemma class_data_lists_known_records_once_witness :
  list_sum
    (map (fun d => List.length (dataGrades d))
         (studentData nat Z (fun _ _ => "90.00") classRoster
            [mkGrade nat Z "s2" "Math" 1 45%Z 50%Z;
             mkGrade nat Z "s9" "Math" 1 40%Z 50%Z;
             mkGrade nat Z "s2" "English" 2 18%Z 20%Z]
            [mkAnecdote "s3" "Helps classmates."]))
  = 2.
Proof.
  refine (proj1 (proj2 (class_data_lists_known_records_once
                          nat Z (fun _ _ => "90.00") classRoster
                          [mkGrade nat Z "s2" "Math" 1 45%Z 50%Z;
                           mkGrade nat Z "s9" "Math" 1 40%Z 50%Z;
                           mkGrade nat Z "s2" "English" 2 18%Z 20%Z]
                          [mkAnecdote "s3" "Helps classmates."] _))).
  repeat (constructor; [simpl; intuition discriminate|]). constructor.
Defined.

Lemma roster_line_names_every_member_witness :
  Substring "Maria Santos" (studentList classRoster).
Proof.
  apply (proj1 (roster_line_names_every_member classRoster) maria).
  simpl; auto.
Defined.
